(** * go-sqlite: a shallow embedding of [sqlite.go] and its properties

    The package wraps an embedded SQL engine with two connection pools, a
    forward-only migration runner, a transaction handle carrying a frozen
    timestamp, a nullable-timestamp codec and a pagination helper.

    Everything outside the package (the SQL driver, the file system, the
    clock, the standard [time] package) is an external collaborator.  Those
    are represented by explicit environments: functions that either return a
    value or an error, together with a log of the calls that were made. *)

From Stdlib Require Import ZArith Lia List Bool Ascii String.
From Stdlib Require Import DecimalString DecimalZ DecimalPos Sorting.Sorted.
From stdpp Require Import base gmap strings list sorting.

Local Open Scope string_scope.
#[local] Set Warnings "-clear-no-such-hyp".

(** ** Errors

    A Go [error] is a value with a message that may wrap a cause.  Errors
    produced by an external collaborator are tagged with the call site that
    produced them, so that a returned error can be traced to its origin. *)

Inductive site : Type :=
| AtMkdirAll | AtSqlOpen | AtPoolClose
| AtCreateTable | AtGlob | AtBegin | AtCount | AtReadFile
| AtExecScript | AtInsert | AtCommit
| AtBeginTx | AtBeginImmediate | AtBeginReadTx | AtParse.

Inductive wrap_context : Type :=
| CannotCreateMigrationsTable
    (* fmt.Errorf("cannot create migrations table: %w", err) *)
| MigrationErrorName (name : string).
    (* fmt.Errorf("migration error: name=%q err=%w", name, err) *)

Inductive error : Type :=
| errorString (msg : string)
| external (s : site) (detail : string)
| wrapped (ctx : wrap_context) (cause : error).


Global Instance site_eq_dec : EqDecision site.
Proof. solve_decision. Defined.

(** A call either returns or panics (nil-pointer dereference). *)
Inductive run (A : Type) : Type :=
| Done (a : A)
| Panic.
Arguments Done {A} a.
Arguments Panic {A}.

(** ** Pagination formatter *)

(** [%d] of [fmt.Sprintf] on an [int]. *)
Definition Sprintf_d (z : Z) : string := NilZero.string_of_int (Z.to_int z).

Definition FormatLimitOffset (limit offset : Z) : string :=
  if ((0 <? limit) && (0 <? offset))%Z then
    "LIMIT " +:+ Sprintf_d limit +:+ " OFFSET " +:+ Sprintf_d offset
  else if (0 <? limit)%Z then
    "LIMIT " +:+ Sprintf_d limit
  else if (0 <? offset)%Z then
    "OFFSET " +:+ Sprintf_d offset
  else "".


(** ** The standard [time] package

    Only what [sqlite.go] uses: instants with a location, [UTC], [Truncate],
    [IsZero], [Equal], and formatting and parsing under the layout
    [time.RFC3339] = "2006-01-02T15:04:05Z07:00".  An instant is the number
    of seconds elapsed since January 1, year 1, 00:00:00 UTC (the zero
    [Time]) plus a nanosecond part; the calendar is the proleptic Gregorian
    one. *)

Module time.
Local Open Scope Z_scope.

Inductive Location : Type :=
| UTCLoc
| FixedZone (name : string) (offset : Z).

Definition zone_offset (l : Location) : Z :=
  match l with
  | UTCLoc => 0
  | FixedZone _ o => o
  end.

Record Time : Type := mkTime { sec : Z; nsec : Z; loc : Location }.

(** [time.Time{}] *)
Definition zero : Time := mkTime 0 0 UTCLoc.

Definition Second : Z := 1000000000.

Definition UTC (t : Time) : Time := mkTime (sec t) (nsec t) UTCLoc.

Definition IsZero (t : Time) : bool := (sec t =? 0) && (nsec t =? 0).

Definition Equal (t u : Time) : bool := (sec t =? sec u) && (nsec t =? nsec u).

(** [t.Truncate(d)]: round down to a multiple of [d] since the zero time;
    [d <= 0] returns [t] unchanged. *)
Definition Truncate (d : Z) (t : Time) : Time :=
  if d <=? 0 then t
  else
    let a := sec t * Second + nsec t in
    let a' := a - a mod d in
    mkTime (a' / Second) (a' mod Second) (loc t).

(** *** Calendar *)

Definition isLeap (y : Z) : bool :=
  (y mod 4 =? 0) && (negb (y mod 100 =? 0) || (y mod 400 =? 0)).

Definition daysIn (m y : Z) : Z :=
  if m =? 2 then (if isLeap y then 29 else 28)
  else if (m =? 4) || (m =? 6) || (m =? 9) || (m =? 11) then 30
  else 31.

(** Day number (0 = January 1, year 1) to year, month, day. *)
Definition civil (days : Z) : Z * Z * Z :=
  let z := days + 306 in
  let era := z / 146097 in
  let doe := z - era * 146097 in
  let yoe := (doe - doe / 1460 + doe / 36524 - doe / 146096) / 365 in
  let y := yoe + era * 400 in
  let doy := doe - (365 * yoe + yoe / 4 - yoe / 100) in
  let mp := (5 * doy + 2) / 153 in
  let d := doy - (153 * mp + 2) / 5 + 1 in
  let m := if mp <? 10 then mp + 3 else mp - 9 in
  (if m <=? 2 then y + 1 else y, m, d).

(** Year, month, day to day number. *)
Definition daynum (y m d : Z) : Z :=
  let y' := if m <=? 2 then y - 1 else y in
  let era := y' / 400 in
  let yoe := y' - era * 400 in
  let mp := if 2 <? m then m - 3 else m + 9 in
  let doy := (153 * mp + 2) / 5 + d - 1 in
  let doe := yoe * 365 + yoe / 4 - yoe / 100 + doy in
  era * 146097 + doe - 306.

Definition Year (t : Time) : Z :=
  let '(y, _, _) := civil ((sec t + zone_offset (loc t)) / 86400) in y.

(** *** Formatting *)

Fixpoint zeros (n : nat) : string :=
  match n with
  | O => ""
  | S n' => String "0" (zeros n')
  end.

(** [appendInt(b, x, width)]: decimal, zero-padded to at least [width]
    digits, with a leading minus sign for negative [x]. *)
Definition appendInt (x : Z) (width : nat) : string :=
  let ds := NilZero.string_of_uint (N.to_uint (Z.to_N (Z.abs x))) in
  (if x <? 0 then "-"%string else ""%string)
    +:+ zeros (width - String.length ds) +:+ ds.

Definition appendZone (off : Z) : string :=
  if off =? 0 then "Z"%string
  else
    let zone := Z.quot off 60 in
    (if zone <? 0 then "-"%string else "+"%string)
      +:+ appendInt (Z.abs zone / 60) 2 +:+ ":" +:+ appendInt (Z.abs zone mod 60) 2.

(** [t.Format(time.RFC3339)] *)
Definition Format_RFC3339 (t : Time) : string :=
  let off := zone_offset (loc t) in
  let a := sec t + off in
  let r := a mod 86400 in
  let '(y, m, d) := civil (a / 86400) in
  appendInt y 4 +:+ "-" +:+ appendInt m 2 +:+ "-" +:+ appendInt d 2
    +:+ "T" +:+ appendInt (r / 3600) 2 +:+ ":" +:+ appendInt (r mod 3600 / 60) 2
    +:+ ":" +:+ appendInt (r mod 60) 2 +:+ appendZone off.

(** *** Parsing *)

Definition digit_val (c : ascii) : option Z :=
  let n := Z.of_N (N_of_ascii c) in
  if (48 <=? n) && (n <=? 57) then Some (n - 48) else None.

(** A fixed-width decimal field. *)
Fixpoint getnum (width : nat) (acc : Z) (s : string) : option (Z * string) :=
  match width with
  | O => Some (acc, s)
  | S w =>
      match s with
      | String c s' =>
          match digit_val c with
          | Some v => getnum w (10 * acc + v) s'
          | None => None
          end
      | EmptyString => None
      end
  end.

Definition expect (c : ascii) (s : string) : option string :=
  match s with
  | String c' s' => if Ascii.eqb c c' then Some s' else None
  | EmptyString => None
  end.

(** The run of digits at the head of [s], and the rest. *)
Fixpoint span_digits (s : string) : list Z * string :=
  match s with
  | String c s' =>
      match digit_val c with
      | Some v => let '(ds, r) := span_digits s' in (v :: ds, r)
      | None => (nil, s)
      end
  | EmptyString => (nil, s)
  end.

(** An optional fractional second: a period or comma followed by at least
    one digit; digits beyond the ninth are dropped. *)
Definition getfrac (s : string) : Z * string :=
  match s with
  | String c s' =>
      if Ascii.eqb c "." || Ascii.eqb c "," then
        match span_digits s' with
        | (nil, _) => (0, s)
        | (ds, r) =>
            let ds9 := firstn 9 ds in
            (fold_left (fun a v => 10 * a + v) ds9 0
               * 10 ^ (9 - Z.of_nat (List.length ds9)), r)
        end
      else (0, s)
  | EmptyString => (0, s)
  end.

(** The zone field of the layout ("Z07:00"): [Z], or a signed [hh:mm]. *)
Definition getzone (s : string) : option (Location * Z * string) :=
  match s with
  | String c s' =>
      if Ascii.eqb c "Z" then Some (UTCLoc, 0, s')
      else
        sign ← (if Ascii.eqb c "+" then Some 1
                else if Ascii.eqb c "-" then Some (-1) else None);
        '(hh, s1) ← getnum 2 0 s';
        s2 ← expect ":" s1;
        '(mm, s3) ← getnum 2 0 s2;
        if (24 <? hh) || (60 <? mm) then None
        else
          let off := sign * ((hh * 60 + mm) * 60) in
          Some (FixedZone "" off, off, s3)
  | EmptyString => None
  end.

Definition parse_rfc3339 (s : string) : option Time :=
  '(year, s) ← getnum 4 0 s;
  s ← expect "-" s;
  '(month, s) ← getnum 2 0 s;
  s ← expect "-" s;
  '(day, s) ← getnum 2 0 s;
  s ← expect "T" s;
  '(hour, s) ← getnum 2 0 s;
  s ← expect ":" s;
  '(min, s) ← getnum 2 0 s;
  s ← expect ":" s;
  '(sec, s) ← getnum 2 0 s;
  let '(ns, s) := getfrac s in
  '(l, off, s) ← getzone s;
  if negb (String.eqb s "") then None
  else if (month <? 1) || (12 <? month) then None
  else if (day <? 1) || (daysIn month year <? day) then None
  else if (24 <=? hour) || (60 <=? min) || (60 <=? sec) then None
  else
    Some (mkTime (daynum year month day * 86400
                  + hour * 3600 + min * 60 + sec - off) ns l).

(** [time.Parse(time.RFC3339, s)]: on failure the returned [Time] is the
    zero value and the error is non-nil. *)
Definition Parse_RFC3339 (s : string) : Time * option error :=
  match parse_rfc3339 s with
  | Some t => (t, None)
  | None => (zero, Some (external AtParse s))
  end.

End time.

(** ** Nullable-timestamp codec ([NullTime]) *)

(** The dynamic values a [Scan] can be handed through [interface{}]: the
    types a driver produces, and any other type by its name. *)
Inductive value : Type :=
| VNil
| VString (s : string)
| VBytes (b : list ascii)
| VInt64 (z : Z)
| VFloat64 (bits : Z)
| VBool (b : bool)
| VTime (t : time.Time)
| VOther (type_name : string).

(** What the verb [%T] prints. *)
Definition Sprintf_T (v : value) : string :=
  match v with
  | VNil => "<nil>"
  | VString _ => "string"
  | VBytes _ => "[]uint8"
  | VInt64 _ => "int64"
  | VFloat64 _ => "float64"
  | VBool _ => "bool"
  | VTime _ => "time.Time"
  | VOther ty => ty
  end.

(** The receiver is a pointer: [None] is the nil pointer, [Some t] a pointer
    to a [NullTime] holding [t].  [Scan] returns the pointee after the call
    and the error. *)
Definition NullTime_Scan (n : option time.Time) (v : value)
  : run (option time.Time * option error) :=
  match v with
  | VNil =>
      match n with
      | None => Panic
      | Some _ => Done (Some time.zero, None)
      end
  | VString s =>
      match n with
      | None => Panic
      | Some _ => Done (Some (fst (time.Parse_RFC3339 s)), None)
      end
  | _ =>
      Done (n, Some (errorString
                       ("NullTime: cannot scan to time.Time: " +:+ Sprintf_T v)))
  end.

(** [Value] returns a [driver.Value] and an error. *)
Definition NullTime_Value (n : option time.Time) : run (value * option error) :=
  match n with
  | None => Done (VNil, None)
  | Some t =>
      if time.IsZero t then Done (VNil, None)
      else Done (VString (time.Format_RFC3339 (time.UTC t)), None)
  end.

(** ** Connection-pool manager *)

(** A [*sql.DB] handle: the data source name it was opened with and its
    pool settings. *)
Record Pool : Type := mkPool {
  dsn : string;
  MaxOpenConns : Z;
  MaxIdleConns : Z;
  ConnMaxLifetime : Z;
  ConnMaxIdleTime : Z;
  closed : bool
}.

(** What [sql.Open] returns on success: unlimited open connections, two
    idle ones, no expiry. *)
Definition fresh_pool (d : string) : Pool := mkPool d 0 2 0 0 false.

Definition SetMaxOpenConns (n : Z) (p : Pool) : Pool :=
  mkPool (dsn p) n (MaxIdleConns p) (ConnMaxLifetime p) (ConnMaxIdleTime p) (closed p).
Definition SetMaxIdleConns (n : Z) (p : Pool) : Pool :=
  mkPool (dsn p) (MaxOpenConns p) n (ConnMaxLifetime p) (ConnMaxIdleTime p) (closed p).
Definition SetConnMaxLifetime (d : Z) (p : Pool) : Pool :=
  mkPool (dsn p) (MaxOpenConns p) (MaxIdleConns p) d (ConnMaxIdleTime p) (closed p).
Definition SetConnMaxIdleTime (d : Z) (p : Pool) : Pool :=
  mkPool (dsn p) (MaxOpenConns p) (MaxIdleConns p) (ConnMaxLifetime p) d (closed p).
Definition pool_Close (p : Pool) : Pool :=
  mkPool (dsn p) (MaxOpenConns p) (MaxIdleConns p) (ConnMaxLifetime p)
         (ConnMaxIdleTime p) true.

(** The manager.  [Now] is the injected clock: [Now k] is what its [k]-th
    reading returns. *)
Record DB : Type := mkDB {
  rwDB : option Pool;
  roDB : option Pool;
  cancelled : bool;
  DSN : string;
  Now : nat -> time.Time
}.

Definition set_rwDB (p : option Pool) (db : DB) : DB :=
  mkDB p (roDB db) (cancelled db) (DSN db) (Now db).
Definition set_roDB (p : option Pool) (db : DB) : DB :=
  mkDB (rwDB db) p (cancelled db) (DSN db) (Now db).

Definition NewDB (system_clock : nat -> time.Time) (dsn : string) : DB :=
  mkDB None None false dsn system_clock.

(** Calls that leave the package while opening. *)
Inductive event : Type :=
| EvMkdirAll (path : string) (perm : Z)
| EvSqlOpen (driver dsn : string)
| EvPoolClose (dsn : string).

(** The operating system and the [database/sql] package as seen by [Open]:
    each call returns [None] on success or the detail of its failure. *)
Record OpenEnv : Type := mkOpenEnv {
  filepath_Dir : string -> string;
  os_MkdirAll : string -> Z -> option string;
  sql_Open : string -> string -> option string
}.

Section Pools.
Variable env : OpenEnv.

Definition openMemory (db : DB) : DB * list event * option error :=
  let dsn := "file::memory:?cache=shared&_foreign_keys=on" in
  match sql_Open env "sqlite3" dsn with
  | Some d => (set_rwDB None db, [EvSqlOpen "sqlite3" dsn], Some (external AtSqlOpen d))
  | None =>
      let rw := SetConnMaxIdleTime 0 (SetConnMaxLifetime 0
                  (SetMaxIdleConns 1 (SetMaxOpenConns 1 (fresh_pool dsn)))) in
      let db := set_rwDB (Some rw) db in
      match sql_Open env "sqlite3" dsn with
      | Some d =>
          (set_roDB None (set_rwDB (Some (pool_Close rw)) db),
           [EvSqlOpen "sqlite3" dsn; EvSqlOpen "sqlite3" dsn; EvPoolClose dsn],
           Some (external AtSqlOpen d))
      | None =>
          let ro := SetMaxIdleConns 5 (SetMaxOpenConns 10 (fresh_pool dsn)) in
          (set_roDB (Some ro) db,
           [EvSqlOpen "sqlite3" dsn; EvSqlOpen "sqlite3" dsn], None)
      end
  end.

Definition Open (db : DB) : DB * list event * option error :=
  if String.eqb (DSN db) "" then
    (db, [], Some (errorString "dsn required"))
  else if String.eqb (DSN db) ":memory:" then
    openMemory db
  else
    let dir := filepath_Dir env (DSN db) in
    match os_MkdirAll env dir 448 (* 0700 *) with
    | Some d => (db, [EvMkdirAll dir 448], Some (external AtMkdirAll d))
    | None =>
        let baseDSN :=
          DSN db +:+ "?_journal_mode=wal&_foreign_keys=on&_busy_timeout=5000" in
        match sql_Open env "sqlite3" baseDSN with
        | Some d =>
            (set_rwDB None db,
             [EvMkdirAll dir 448; EvSqlOpen "sqlite3" baseDSN],
             Some (external AtSqlOpen d))
        | None =>
            let rw := SetConnMaxIdleTime 0 (SetConnMaxLifetime 0
                        (SetMaxIdleConns 1 (SetMaxOpenConns 1 (fresh_pool baseDSN)))) in
            let db := set_rwDB (Some rw) db in
            let roDSN := baseDSN +:+ "&mode=ro" in
            match sql_Open env "sqlite3" roDSN with
            | Some d =>
                (set_roDB None (set_rwDB (Some (pool_Close rw)) db),
                 [EvMkdirAll dir 448; EvSqlOpen "sqlite3" baseDSN;
                  EvSqlOpen "sqlite3" roDSN; EvPoolClose baseDSN],
                 Some (external AtSqlOpen d))
            | None =>
                let ro := SetMaxIdleConns 5 (SetMaxOpenConns 10 (fresh_pool roDSN)) in
                (set_roDB (Some ro) db,
                 [EvMkdirAll dir 448; EvSqlOpen "sqlite3" baseDSN;
                  EvSqlOpen "sqlite3" roDSN], None)
            end
        end
    end.

End Pools.

(** *** Reading the access mode off a data source name

    The parameters of a data source name are the [&]-separated fields that
    follow its first [?]; a pool is asked to be read-only when one of them is
    [mode=ro]. *)






(** ** Transaction wrapper *)

Inductive pool_kind : Type := WritePool | ReadPool.

Record TxOptions : Type := mkTxOptions { ReadOnly : bool }.

(** The handle: the pool the underlying [*sql.Tx] runs on, the options it
    was begun with, and the frozen timestamp. *)
Record Tx : Type := mkTx {
  tx_pool : pool_kind;
  tx_opts : option TxOptions;
  now : time.Time
}.

Inductive tx_event : Type :=
| TxBegin (k : pool_kind) (opts : option TxOptions)
| TxExec (stmt : string)
| TxRollback.

(** The world a transaction is begun in: how many times the clock has been
    read, and the driver calls made so far. *)
Record World : Type := mkWorld { clock_reads : nat; calls : list tx_event }.

(** The driver as seen by the two begin operations. *)
Record TxEnv : Type := mkTxEnv {
  begin_fault : pool_kind -> option string;
  exec_fault : string -> option string
}.

Section Transactions.
Variable env : TxEnv.

Definition BeginTx (db : DB) (opts : option TxOptions) (w : World)
  : run (World * option Tx * option error) :=
  match rwDB db with
  | None => Panic
  | Some _ =>
      match begin_fault env WritePool with
      | Some d =>
          Done (mkWorld (clock_reads w) (calls w ++ [TxBegin WritePool opts]),
                None, Some (external AtBeginTx d))
      | None =>
          match exec_fault env "ROLLBACK; BEGIN IMMEDIATE" with
          | Some d =>
              Done (mkWorld (clock_reads w)
                      (calls w ++ [TxBegin WritePool opts;
                                   TxExec "ROLLBACK; BEGIN IMMEDIATE"; TxRollback]),
                    None, Some (external AtBeginImmediate d))
          | None =>
              Done (mkWorld (S (clock_reads w))
                      (calls w ++ [TxBegin WritePool opts;
                                   TxExec "ROLLBACK; BEGIN IMMEDIATE"]),
                    Some (mkTx WritePool opts
                            (time.Truncate time.Second
                               (time.UTC (Now db (clock_reads w))))),
                    None)
          end
      end
  end.

Definition BeginReadTx (db : DB) (w : World)
  : run (World * option Tx * option error) :=
  match roDB db with
  | None => Panic
  | Some _ =>
      let opts := Some (mkTxOptions true) in
      match begin_fault env ReadPool with
      | Some d =>
          Done (mkWorld (clock_reads w) (calls w ++ [TxBegin ReadPool opts]),
                None, Some (external AtBeginReadTx d))
      | None =>
          Done (mkWorld (S (clock_reads w)) (calls w ++ [TxBegin ReadPool opts]),
                Some (mkTx ReadPool opts
                        (time.Truncate time.Second
                           (time.UTC (Now db (clock_reads w))))),
                None)
      end
  end.

End Transactions.

(** [Tx.Now]: reads the handle only; the world is handed back untouched. *)
Definition Tx_Now (tx : Tx) (w : World) : time.Time * World := (now tx, w).

(** ** Migration runner *)

(** What a call into the file system or the SQL engine gives back. *)
Inductive io (A : Type) : Type :=
| Ret (a : A)
| Fail (detail : string).
Arguments Ret {A} a.
Arguments Fail {A} detail.

(** [sort.Strings]: ascending, bytewise. *)
Fixpoint insert_sorted (x : string) (l : list string) : list string :=
  match l with
  | [] => [x]
  | y :: l' => if String.leb x y then x :: l else y :: insert_sorted x l'
  end.

Definition sort_Strings (l : list string) : list string :=
  foldr insert_sorted [] l.

Section Migration.

(** [U] is whatever the engine stores besides the bookkeeping table: the
    schema and the user data. *)
Variable U : Type.

(** The committed content of the database.  The bookkeeping table
    [migrations (name TEXT PRIMARY KEY)] is the set of its rows; a table that
    was never created has no rows. *)
Record Store : Type := mkStore { user : U; migrations : gset string }.

(** The database together with the names of the scripts whose text has been
    handed to the engine, in order. *)
Record MWorld : Type := mkMWorld { db : Store; executed : list string }.

(** The file system ([fs.FS]), the engine's execution of a script's text
    inside the open transaction, and the faults the driver raises at a call
    site while working on a script. *)
Record MEnv : Type := mkMEnv {
  fs_Glob : string -> io (list string);
  fs_ReadFile : string -> io string;
  exec_script : string -> Store -> io Store;
  fault : site -> string -> option string
}.

Variable env : MEnv.

(** [SELECT COUNT( * ) FROM migrations WHERE name = ?] *)
Definition count_rows (name : string) (st : Store) : Z :=
  if decide (name ∈ migrations st) then 1%Z else 0%Z.

(** [INSERT INTO migrations (name) VALUES (?)]: the primary key rejects a
    name that is already there. *)
Definition insert_row (name : string) (st : Store) : io Store :=
  match fault env AtInsert name with
  | Some d => Fail d
  | None =>
      if decide (name ∈ migrations st) then
        Fail "UNIQUE constraint failed: migrations.name"
      else Ret (mkStore (user st) ({[ name ]} ∪ migrations st))
  end.

(** The transaction works on a copy of the database; only a [Commit] that
    succeeds installs the copy (a [Commit] that fails installs nothing), and
    the deferred [Rollback] drops it on every other path. *)
Definition migrateFile (name : string) (w : MWorld) : MWorld * option error :=
  match fault env AtBegin name with
  | Some d => (w, Some (external AtBegin d))
  | None =>
      match fault env AtCount name with
      | Some d => (w, Some (external AtCount d))
      | None =>
          let n := count_rows name (db w) in
          if negb (n =? 0)%Z then (w, None)
          else
            match fs_ReadFile env name with
            | Fail d => (w, Some (external AtReadFile d))
            | Ret buf =>
                let w1 := mkMWorld (db w) (executed w ++ [name]) in
                match exec_script env buf (db w) with
                | Fail d => (w1, Some (external AtExecScript d))
                | Ret st1 =>
                    match insert_row name st1 with
                    | Fail d => (w1, Some (external AtInsert d))
                    | Ret st2 =>
                        match fault env AtCommit name with
                        | Some d => (w1, Some (external AtCommit d))
                        | None => (mkMWorld st2 (executed w1), None)
                        end
                    end
                end
            end
      end
  end.

(** The [for _, name := range names] loop. *)
Fixpoint migrate_loop (names : list string) (w : MWorld) : MWorld * option error :=
  match names with
  | [] => (w, None)
  | name :: rest =>
      match migrateFile name w with
      | (w', Some e) => (w', Some (wrapped (MigrationErrorName name) e))
      | (w', None) => migrate_loop rest w'
      end
  end.

Definition Migrate (w : MWorld) : MWorld * option error :=
  match fault env AtCreateTable "" with
  | Some d =>
      (w, Some (wrapped CannotCreateMigrationsTable (external AtCreateTable d)))
  | None =>
      match fs_Glob env "migration/*.sql" with
      | Fail d => (w, Some (external AtGlob d))
      | Ret names => migrate_loop (sort_Strings names) w
      end
  end.

End Migration.

Arguments mkStore {U} user migrations.
Arguments user {U} s.
Arguments migrations {U} s.
Arguments mkMWorld {U} db executed.
Arguments db {U} m.
Arguments executed {U} m.
Arguments mkMEnv {U} fs_Glob fs_ReadFile exec_script fault.
Arguments fs_Glob {U} m.
Arguments fs_ReadFile {U} m.
Arguments exec_script {U} m.
Arguments fault {U} m.
Arguments count_rows {U} name st.
Arguments insert_row {U} env name st.
Arguments migrateFile {U} env name w.
Arguments migrate_loop {U} env names w.
Arguments Migrate {U} env w.

(** *** A small engine to run the migration runner on

    The user part of the database is the list of table names; the text of a
    script is the name of one table to create, which fails when the table
    exists, and the empty text is the empty batch. *)

Definition create_table_engine (text : string) (st : Store (list string))
  : io (Store (list string)) :=
  if String.eqb text "" then Ret st
  else if existsb (String.eqb text) (user st) then
    Fail ("table " +:+ text +:+ " already exists")
  else Ret (mkStore (user st ++ [text])%list (migrations st)).

(** A file system given as a list of (path, text) pairs, all of them
    matching the pattern. *)
Fixpoint lookup_file (files : list (string * string)) (name : string) : io string :=
  match files with
  | [] => Fail "file does not exist"
  | (p, text) :: rest => if String.eqb p name then Ret text else lookup_file rest name
  end.

Definition list_fs (files : list (string * string))
  (faults : site -> string -> option string) : MEnv (list string) :=
  mkMEnv (fun _ => Ret (map fst files)) (lookup_file files)
         create_table_engine faults.

Definition no_fault : site -> string -> option string := fun _ _ => None.

(** A second engine, in which scripts reach the bookkeeping table: the text
    [DELETE FROM migrations] empties it, and any other text adds itself as
    a row of user data and never fails. *)
Definition appending_engine (text : string) (st : Store (list string))
  : io (Store (list string)) :=
  if String.eqb text "DELETE FROM migrations" then Ret (mkStore (user st) ∅)
  else Ret (mkStore (user st ++ [text])%list (migrations st)).

Definition appending_fs (files : list (string * string)) : MEnv (list string) :=
  mkMEnv (fun _ => Ret (map fst files)) (lookup_file files)
         appending_engine no_fault.

Definition empty_world : MWorld (list string) := mkMWorld (mkStore [] ∅) [].


(** ** Shutting the manager down *)

Definition set_cancelled (b : bool) (db : DB) : DB :=
  mkDB (rwDB db) (roDB db) b (DSN db) (Now db).

(** [Close], for a manager made by [NewDB] (its [cancel] is set).
    [close_fault p] is what the driver's [Close] of pool [p] reports; the
    pool is closed whether or not it reports a failure. *)
Definition Close (close_fault : Pool -> option string) (db : DB)
  : DB * list event * option error :=
  let db := set_cancelled true db in
  let errs : list error := [] in
  let '(db, log, errs) :=
    match rwDB db with
    | Some p =>
        (set_rwDB (Some (pool_Close p)) db, [EvPoolClose (dsn p)],
         match close_fault p with
         | Some d => (errs ++ [external AtPoolClose d])%list
         | None => errs
         end)
    | None => (db, [], errs)
    end in
  let '(db, log, errs) :=
    match roDB db with
    | Some p =>
        (set_roDB (Some (pool_Close p)) db, (log ++ [EvPoolClose (dsn p)])%list,
         match close_fault p with
         | Some d => (errs ++ [external AtPoolClose d])%list
         | None => errs
         end)
    | None => (db, log, errs)
    end in
  (db, log, head errs).

(** ** Notions used in the statements *)

(** The type-mismatch error of [Scan]. *)
Definition scan_type_error (v : value) : error :=
  errorString ("NullTime: cannot scan to time.Time: " +:+ Sprintf_T v).

(** A pool handle that is unset or closed holds no connection. *)
Definition released (p : option Pool) : Prop :=
  match p with
  | Some pool => closed pool = true
  | None => True
  end.



(** The characters a pagination clause is made of. *)
Definition clause_char (c : ascii) : bool :=
  existsb (Ascii.eqb c) (list_ascii_of_string "LIMIT OFFSET0123456789").

(** The steps of applying a script that was found unrecorded. *)
Definition apply_step (s : site) : Prop :=
  s = AtReadFile \/ s = AtExecScript \/ s = AtInsert \/ s = AtCommit.

(** The scripts of an environment leave the bookkeeping table alone. *)
Definition keeps_bookkeeping {U : Type} (env : MEnv U) : Prop :=
  forall text st st',
    exec_script env text st = Ret st' -> migrations st' = migrations st.

(** ** Concrete environments

    Small instances of the environments above, on which the program is run
    in the examples that follow the theorems. *)

Definition midnight_clock : nat -> time.Time := fun _ => time.zero.

(** 2025-01-15 12:00:00.25 UTC+01:00, then one hour later at every reading. *)
Definition ticking_clock (k : nat) : time.Time :=
  time.mkTime (63872539200 + 3600 * Z.of_nat k) 250000000
              (time.FixedZone "CET" 3600).

Definition fixed_clock : nat -> time.Time :=
  fun _ => time.mkTime 63872539200 0 time.UTCLoc.

Definition always_ok : OpenEnv :=
  mkOpenEnv (fun p => p) (fun _ _ => None) (fun _ _ => None).

Definition opened_db (clock : nat -> time.Time) : DB :=
  (Open always_ok (NewDB clock ":memory:")).1.1.

Definition quiet_driver : TxEnv := mkTxEnv (fun _ => None) (fun _ => None).

Definition files_one : list (string * string) :=
  [("migration/00001_init.sql", "users")].

Definition files_other : list (string * string) :=
  [("migration/00002_posts.sql", "posts")].

Definition files_two : list (string * string) :=
  [("migration/00002_posts.sql", "posts");
   ("migration/00001_init.sql", "users")].

Definition files_wipe : list (string * string) :=
  [("migration/00001_seed.sql", "seed");
   ("migration/00002_wipe.sql", "DELETE FROM migrations")].





Definition close_ok : Pool -> option string := fun _ => None.

Definition close_rw_fails : Pool -> option string :=
  fun p => if (MaxOpenConns p =? 1)%Z then Some "rw busy" else None.

Definition close_fails : Pool -> option string :=
  fun p => if (MaxOpenConns p =? 1)%Z then Some "rw busy" else Some "ro busy".

(** A driver on which the immediate lock cannot be taken. *)
Definition busy_driver : TxEnv :=
  mkTxEnv (fun _ => None) (fun _ => Some "database is locked").




(** The listing of [files_two] in the other order. *)
Definition files_two_listed_sorted : list (string * string) :=
  [("migration/00001_init.sql", "users");
   ("migration/00002_posts.sql", "posts")].



(** * Properties *)

(** ** Pagination formatter *)

Example FormatLimitOffset_table :
  FormatLimitOffset 0 0 = "" /\
  FormatLimitOffset 10 0 = "LIMIT 10" /\
  FormatLimitOffset 0 5 = "OFFSET 5" /\
  FormatLimitOffset 10 5 = "LIMIT 10 OFFSET 5".
Proof. repeat split; reflexivity. Qed.

(** The text [%d] prints is the decimal numeral of the integer. *)
Lemma Sprintf_d_decimal (z : Z) :
  Z.of_int <$> NilZero.int_of_string (Sprintf_d z) = Some z.
Proof.
  unfold Sprintf_d.
  rewrite NilZero.isi.
  - simpl. f_equal. apply DecimalZ.of_to.
  - destruct z; simpl; try discriminate.
    intros [= H]. apply (f_equal Pos.of_uint) in H.
    rewrite DecimalPos.Unsigned.of_to in H. discriminate.
  - destruct z; simpl; try discriminate.
    intros [= H]. apply (f_equal Pos.of_uint) in H.
    rewrite DecimalPos.Unsigned.of_to in H. discriminate.
Qed.

(** C4. [FormatLimitOffset] by the signs of its arguments: empty when both
    are non-positive, both clauses when both are positive, the one clause
    whose argument is positive otherwise; the numbers are printed in
    decimal. *)
Theorem FormatLimitOffset_cases (limit offset : Z) :
  ((limit <= 0)%Z -> (offset <= 0)%Z -> FormatLimitOffset limit offset = "") /\
  ((0 < limit)%Z -> (0 < offset)%Z ->
     FormatLimitOffset limit offset
     = "LIMIT " +:+ Sprintf_d limit +:+ " OFFSET " +:+ Sprintf_d offset) /\
  ((0 < limit)%Z -> (offset <= 0)%Z ->
     FormatLimitOffset limit offset = "LIMIT " +:+ Sprintf_d limit) /\
  ((limit <= 0)%Z -> (0 < offset)%Z ->
     FormatLimitOffset limit offset = "OFFSET " +:+ Sprintf_d offset) /\
  Z.of_int <$> NilZero.int_of_string (Sprintf_d limit) = Some limit /\
  Z.of_int <$> NilZero.int_of_string (Sprintf_d offset) = Some offset.
Proof.
  unfold FormatLimitOffset.
  repeat split; try apply Sprintf_d_decimal; intros Hl Ho;
    destruct (Z.ltb_spec 0 limit), (Z.ltb_spec 0 offset);
    simpl; first [ reflexivity | lia ].
Qed.

Lemma FormatLimitOffset_cases_witness :
  FormatLimitOffset (-3) 0 = "" /\
  FormatLimitOffset 10 5 = "LIMIT 10 OFFSET 5" /\
  FormatLimitOffset 10 (-1) = "LIMIT 10" /\
  FormatLimitOffset 0 5 = "OFFSET 5".
Proof.
  split; [| split; [| split]].
  - apply (proj1 (FormatLimitOffset_cases (-3) 0)); lia.
  - apply (proj1 (proj2 (FormatLimitOffset_cases 10 5))); lia.
  - apply (proj1 (proj2 (proj2 (FormatLimitOffset_cases 10 (-1))))); lia.
  - apply (proj1 (proj2 (proj2 (proj2 (FormatLimitOffset_cases 0 5))))); lia.
Defined.

(** ** Connection-pool manager *)

(** C8. With an empty data source name [Open] returns the configuration
    error at once: the manager is returned as it was, so pool handles that
    were unset stay unset, and no call leaves the package (no directory is
    created and the driver is not asked to open anything). *)
Theorem Open_empty_dsn (env : OpenEnv) (db : DB) :
  DSN db = "" ->
  Open env db = (db, [], Some (errorString "dsn required")) /\
  (rwDB db = None -> roDB db = None ->
   rwDB (Open env db).1.1 = None /\ roDB (Open env db).1.1 = None).
Proof.
  intros H. unfold Open. rewrite H. simpl. auto.
Qed.

Lemma Open_empty_dsn_witness :
  Open always_ok (NewDB midnight_clock "")
  = (NewDB midnight_clock "", [], Some (errorString "dsn required")).
Proof.
  apply (proj1 (Open_empty_dsn always_ok (NewDB midnight_clock "") eq_refl)).
Defined.

Lemma append_cons (c : ascii) (s t : string) :
  String c s +:+ t = String c (s +:+ t).
Proof. reflexivity. Qed.

Lemma append_nil_l (t : string) : "" +:+ t = t.
Proof. reflexivity. Qed.








(** ** Transaction wrapper *)

Lemma Truncate_Second_nsec (t : time.Time) :
  time.nsec (time.Truncate time.Second t) = 0%Z /\
  time.loc (time.Truncate time.Second t) = time.loc t.
Proof.
  unfold time.Truncate, time.Second. simpl. split; [|reflexivity].
  Z.div_mod_to_equations. lia.
Qed.

Lemma Truncate_Second_sec (t : time.Time) :
  (0 <= time.nsec t < 1000000000)%Z ->
  time.sec (time.Truncate time.Second t) = time.sec t.
Proof.
  intros H. unfold time.Truncate, time.Second. simpl.
  Z.div_mod_to_equations. lia.
Qed.

Lemma Begin_handle (env : TxEnv) (db : DB) (opts : option TxOptions)
      (w w' : World) (tx : Tx) (e : option error) :
  BeginTx env db opts w = Done (w', Some tx, e) \/
  BeginReadTx env db w = Done (w', Some tx, e) ->
  e = None /\
  clock_reads w' = S (clock_reads w) /\
  now tx = time.Truncate time.Second (time.UTC (Now db (clock_reads w))).
Proof.
  unfold BeginTx, BeginReadTx. intros [H|H].
  - destruct (rwDB db); [|discriminate].
    destruct (begin_fault env WritePool); [discriminate|].
    destruct (exec_fault env _); [discriminate|].
    injection H as <- <- <-. auto.
  - destruct (roDB db); [|discriminate].
    destruct (begin_fault env ReadPool); [discriminate|].
    injection H as <- <- <-. auto.
Qed.

(** C3. A handle returned by [BeginTx] or [BeginReadTx] carries the value of
    the one clock reading made while beginning, moved to UTC and cut to the
    whole second; [Now] returns that value whatever the world has become
    and reads no clock; under a clock that always returns the instant [t]
    the value is [t] cut to the second, in UTC. *)
Theorem Tx_Now_frozen (env : TxEnv) (db : DB) (opts : option TxOptions)
        (w w' : World) (tx : Tx) (e : option error) :
  BeginTx env db opts w = Done (w', Some tx, e) \/
  BeginReadTx env db w = Done (w', Some tx, e) ->
  let sampled := Now db (clock_reads w) in
  clock_reads w' = S (clock_reads w) /\
  (forall w1, Tx_Now tx w1
              = (time.Truncate time.Second (time.UTC sampled), w1)) /\
  (forall w1 w2, (Tx_Now tx w1).1 = (Tx_Now tx w2).1) /\
  time.loc (Tx_Now tx w').1 = time.UTCLoc /\
  time.nsec (Tx_Now tx w').1 = 0%Z /\
  ((0 <= time.nsec sampled < 1000000000)%Z ->
     time.sec (Tx_Now tx w').1 = time.sec sampled) /\
  (forall t, (forall k, Now db k = t) ->
     forall w1, (Tx_Now tx w1).1 = time.Truncate time.Second (time.UTC t)).
Proof.
  intros H. apply Begin_handle in H as (_ & Hr & Hn). cbv zeta.
  unfold Tx_Now. simpl. rewrite Hn.
  split; [exact Hr|]. split; [reflexivity|]. split; [reflexivity|].
  split; [apply Truncate_Second_nsec|]. split; [apply Truncate_Second_nsec|].
  split.
  - intros Hns. now rewrite Truncate_Second_sec.
  - intros t Ht _. now rewrite Ht.
Qed.

Lemma Tx_Now_frozen_witness :
  (exists w' tx,
     BeginTx quiet_driver (opened_db ticking_clock) None (mkWorld 0 [])
     = Done (w', Some tx, None) /\
     forall w1, Tx_Now tx w1 = (time.mkTime 63872539200 0 time.UTCLoc, w1)) /\
  (exists w' tx,
     BeginReadTx quiet_driver (opened_db fixed_clock) (mkWorld 7 [])
     = Done (w', Some tx, None) /\
     forall w1, (Tx_Now tx w1).1 = time.mkTime 63872539200 0 time.UTCLoc).
Proof.
  split.
  - eexists _, _. split; [reflexivity|].
    intros w1.
    refine (eq_trans (proj1 (proj2 (Tx_Now_frozen quiet_driver
              (opened_db ticking_clock) None (mkWorld 0 []) _ _ None
              (or_introl eq_refl))) w1) _).
    reflexivity.
  - eexists _, _. split; [reflexivity|].
    intros w1.
    refine (eq_trans (proj2 (proj2 (proj2 (proj2 (proj2 (proj2
              (Tx_Now_frozen quiet_driver (opened_db fixed_clock) None
                 (mkWorld 7 []) _ _ None (or_intror eq_refl)))))))
              (time.mkTime 63872539200 0 time.UTCLoc) (fun _ => eq_refl) w1) _).
    reflexivity.
Defined.

(** ** Nullable-timestamp codec *)

(** C9. [Value] on a nil receiver returns the null marker and no error, and
    does not panic; a receiver holding a zero instant gives the same. *)
Theorem Value_nil_receiver :
  NullTime_Value None = Done (VNil, None) /\
  (forall t, time.IsZero t = true ->
             NullTime_Value (Some t) = NullTime_Value None).
Proof.
  split; [reflexivity|]. intros t H. unfold NullTime_Value. now rewrite H.
Qed.

Lemma Value_nil_receiver_witness :
  NullTime_Value (Some (time.mkTime 0 0 (time.FixedZone "CET" 3600)))
  = Done (VNil, None).
Proof.
  exact (proj2 Value_nil_receiver
           (time.mkTime 0 0 (time.FixedZone "CET" 3600)) eq_refl).
Defined.

(** C10. Only a source whose dynamic type is [string] is decoded as text:
    any other non-nil source, a byte slice with well-formed timestamp text
    included, gets the type-mismatch error and the receiver keeps its
    value (also when the receiver is nil: it is not dereferenced). *)
Theorem Scan_decodes_strings_only (n : option time.Time) (v : value) :
  v <> VNil -> (forall s, v <> VString s) ->
  NullTime_Scan n v = Done (n, Some (scan_type_error v)).
Proof.
  intros Hnil Hstr. destruct v; try reflexivity.
  - congruence.
  - exfalso. eapply Hstr. reflexivity.
Qed.

Lemma Scan_decodes_strings_only_witness :
  let text := "2025-01-15T12:00:00Z" in
  let held := time.mkTime 86400 0 time.UTCLoc in
  NullTime_Scan (Some held) (VBytes (list_ascii_of_string text))
  = Done (Some held,
          Some (errorString "NullTime: cannot scan to time.Time: []uint8")) /\
  NullTime_Scan (Some held) (VString text)
  = Done (Some (time.mkTime 63872539200 0 time.UTCLoc), None).
Proof.
  split.
  - apply (Scan_decodes_strings_only
             (Some (time.mkTime 86400 0 time.UTCLoc))
             (VBytes (list_ascii_of_string "2025-01-15T12:00:00Z"))).
    + discriminate.
    + discriminate.
  - reflexivity.
Defined.



(** *** The calendar *)

Section Calendar.
Local Open Scope Z_scope.

Lemma yoe_range (doe : Z) :
  0 <= doe < 146097 ->
  let yoe := (doe - doe / 1460 + doe / 36524 - doe / 146096) / 365 in
  0 <= yoe < 400 /\ 0 <= doe - (365 * yoe + yoe / 4 - yoe / 100) < 366.
Proof. intros H. cbv zeta. Z.div_mod_to_equations. lia. Qed.

(** The 366th day of a year that starts in March exists only when the
    February that ends it is in a leap year. *)
Lemma leap_day (doe : Z) :
  0 <= doe < 146097 ->
  let yoe := (doe - doe / 1460 + doe / 36524 - doe / 146096) / 365 in
  doe - (365 * yoe + yoe / 4 - yoe / 100) = 365 ->
  (yoe + 1) mod 4 = 0 /\ ((yoe + 1) mod 100 <> 0 \/ yoe = 399).
Proof. intros H. cbv zeta. intros H1. Z.div_mod_to_equations. lia. Qed.

Ltac split_eqb :=
  repeat match goal with
         | |- context [?a =? ?b] => destruct (Z.eqb_spec a b)
         end;
  cbn [andb orb negb].

(** Every day number is the day number of its own date, and that date is a
    valid one. *)
Lemma civil_daynum (D : Z) :
  time.daynum (time.civil D).1.1 (time.civil D).1.2 (time.civil D).2 = D /\
  1 <= (time.civil D).1.2 <= 12 /\
  1 <= (time.civil D).2 <= time.daysIn (time.civil D).1.2 (time.civil D).1.1.
Proof.
  cbv beta iota zeta delta
    [time.civil time.daynum fst snd time.daysIn time.isLeap].
  pose proof (yoe_range (D + 306 - (D + 306) / 146097 * 146097)) as R.
  cbv zeta in R.
  set (era := (D + 306) / 146097) in *.
  set (doe := D + 306 - era * 146097) in *.
  assert (Hdoe : 0 <= doe < 146097)
    by (subst doe era; Z.div_mod_to_equations; lia).
  specialize (R Hdoe).
  pose proof (leap_day doe Hdoe) as Hleap. cbv zeta in Hleap.
  set (yoe := (doe - doe / 1460 + doe / 36524 - doe / 146096) / 365) in *.
  set (doy := doe - (365 * yoe + yoe / 4 - yoe / 100)) in *.
  set (mp := (5 * doy + 2) / 153) in *.
  assert (Hmp : 0 <= mp < 12) by (subst mp; Z.div_mod_to_equations; lia).
  assert (Hera : (yoe + era * 400) / 400 = era)
    by (Z.div_mod_to_equations; lia).
  assert (Hd : 1 <= doy - (153 * mp + 2) / 5 + 1 <= 31)
    by (subst mp; Z.div_mod_to_equations; lia).
  destruct (Z.ltb_spec mp 10).
  - destruct (Z.leb_spec (mp + 3) 2); [lia|].
    destruct (Z.ltb_spec 2 (mp + 3)); [|lia].
    replace (mp + 3 - 3) with mp by lia. rewrite Hera.
    replace (yoe + era * 400 - era * 400) with yoe by lia.
    split; [subst doy doe; lia|]. split; [lia|]. split; [lia|].
    split_eqb; subst mp; Z.div_mod_to_equations; lia.
  - destruct (Z.leb_spec (mp - 9) 2); [|lia].
    destruct (Z.ltb_spec 2 (mp - 9)); [lia|].
    replace (mp - 9 + 9) with mp by lia.
    replace (yoe + era * 400 + 1 - 1) with (yoe + era * 400) by lia.
    rewrite Hera.
    replace (yoe + era * 400 - era * 400) with yoe by lia.
    split; [subst doy doe; lia|]. split; [lia|]. split; [lia|].
    split_eqb; subst mp; Z.div_mod_to_equations; lia.
Qed.

(** *** Fixed-width decimal fields *)

Lemma getnum_append (w : nat) (s rest : string) (acc v : Z) :
  time.getnum w acc s = Some (v, "") ->
  time.getnum w acc (s +:+ rest) = Some (v, rest).
Proof.
  revert s acc. induction w as [|w IH]; intros s acc.
  - simpl. intros [= -> ->]. reflexivity.
  - destruct s as [|c s]; [discriminate|].
    rewrite append_cons. simpl. destruct (time.digit_val c); [|discriminate].
    apply IH.
Qed.

Lemma fields_below (w : nat) (bound : Z) :
  forallb (fun x =>
             match time.getnum w 0 (time.appendInt x w) with
             | Some (v, EmptyString) => v =? x
             | _ => false
             end)
          (map Z.of_nat (seq 0 (Z.to_nat bound))) = true ->
  forall x rest, 0 <= x < bound ->
    time.getnum w 0 (time.appendInt x w +:+ rest) = Some (x, rest).
Proof.
  intros Hall x rest Hx.
  apply getnum_append.
  rewrite forallb_forall in Hall.
  specialize (Hall x).
  destruct (time.getnum w 0 (time.appendInt x w)) as [[v [|c r]]|].
  - rewrite (proj1 (Z.eqb_eq v x)); [reflexivity|].
    apply Hall. apply in_map_iff. exists (Z.to_nat x). split; [lia|].
    apply in_seq. lia.
  - exfalso. enough (false = true) by discriminate.
    apply Hall. apply in_map_iff. exists (Z.to_nat x). split; [lia|].
    apply in_seq. lia.
  - exfalso. enough (false = true) by discriminate.
    apply Hall. apply in_map_iff. exists (Z.to_nat x). split; [lia|].
    apply in_seq. lia.
Qed.

Lemma getnum_field2 (x : Z) (rest : string) :
  0 <= x < 100 ->
  time.getnum 2 0 (time.appendInt x 2 +:+ rest) = Some (x, rest).
Proof.
  intros H. apply (fields_below 2 100); [vm_compute; reflexivity | lia].
Qed.

Lemma getnum_field4 (x : Z) (rest : string) :
  0 <= x < 10000 ->
  time.getnum 4 0 (time.appendInt x 4 +:+ rest) = Some (x, rest).
Proof.
  intros H. apply (fields_below 4 10000); [vm_compute; reflexivity | lia].
Qed.

End Calendar.

Section RoundTrip.
Local Open Scope Z_scope.

Lemma expect_lit (c : ascii) (rest : string) :
  time.expect c (String c "" +:+ rest) = Some rest.
Proof.
  rewrite append_cons, append_nil_l. simpl. now rewrite Ascii.eqb_refl.
Qed.

Lemma parse_format_UTC (t : time.Time) :
  0 <= time.Year (time.UTC t) <= 9999 ->
  time.parse_rfc3339 (time.Format_RFC3339 (time.UTC t))
  = Some (time.mkTime (time.sec t) 0 time.UTCLoc).
Proof.
  unfold time.Year, time.Format_RFC3339, time.UTC.
  cbn [time.loc time.sec time.zone_offset].
  rewrite Z.add_0_r.
  pose proof (civil_daynum (time.sec t / 86400)) as (Hday & Hm & Hd).
  destruct (time.civil (time.sec t / 86400)) as [[y m] d].
  cbn [fst snd] in *. intros Hy.
  set (r := time.sec t mod 86400).
  assert (Hr : 0 <= r < 86400) by (subst r; Z.div_mod_to_equations; lia).
  assert (Hdd : d < 100).
  { unfold time.daysIn in Hd.
    destruct (m =? 2); [destruct (time.isLeap y)|]; [lia|lia|].
    destruct ((m =? 4) || (m =? 6) || (m =? 9) || (m =? 11)); lia. }
  assert (Hh : 0 <= r / 3600 < 24) by (Z.div_mod_to_equations; lia).
  assert (Hmi : 0 <= r mod 3600 / 60 < 60) by (Z.div_mod_to_equations; lia).
  assert (Hs : 0 <= r mod 60 < 60) by (Z.div_mod_to_equations; lia).
  unfold time.parse_rfc3339.
  rewrite getnum_field4 by lia. cbn [mbind option_bind].
  rewrite expect_lit. cbn [mbind option_bind].
  rewrite getnum_field2 by lia. cbn [mbind option_bind].
  rewrite expect_lit. cbn [mbind option_bind].
  rewrite getnum_field2 by lia. cbn [mbind option_bind].
  rewrite expect_lit. cbn [mbind option_bind].
  rewrite getnum_field2 by lia. cbn [mbind option_bind].
  rewrite expect_lit. cbn [mbind option_bind].
  rewrite getnum_field2 by lia. cbn [mbind option_bind].
  rewrite expect_lit. cbn [mbind option_bind].
  rewrite getnum_field2 by lia. cbn [mbind option_bind].
  change (time.appendZone 0) with "Z"%string.
  change (time.getfrac "Z") with (0, "Z"%string). cbv iota beta.
  change (time.getzone "Z") with (Some (time.UTCLoc, 0, ""%string)).
  cbn [mbind option_bind String.eqb negb].
  destruct (Z.ltb_spec m 1); [lia|].
  destruct (Z.ltb_spec 12 m); [lia|].
  destruct (Z.ltb_spec d 1); [lia|].
  destruct (Z.ltb_spec (time.daysIn m y) d); [lia|].
  destruct (Z.leb_spec 24 (r / 3600)); [lia|].
  destruct (Z.leb_spec 60 (r mod 3600 / 60)); [lia|].
  destruct (Z.leb_spec 60 (r mod 60)); [lia|].
  cbn [orb]. f_equal. f_equal.
  rewrite Hday. subst r. Z.div_mod_to_equations. lia.
Qed.

End RoundTrip.

(** C5, within the years the layout can carry.  A present instant whose
    year in UTC lies in 0..9999 is encoded by [Value] as text that [Scan]
    decodes to the same instant cut to the whole second, in UTC; a zero
    instant is encoded as the null marker, and the null marker is decoded
    as the zero instant. *)
Theorem NullTime_round_trip (t held : time.Time) :
  (time.IsZero t = false ->
   (0 <= time.Year (time.UTC t) <= 9999)%Z ->
   exists text,
     NullTime_Value (Some t) = Done (VString text, None) /\
     NullTime_Scan (Some held) (VString text)
     = Done (Some (time.mkTime (time.sec t) 0 time.UTCLoc), None) /\
     ((0 <= time.nsec t < 1000000000)%Z ->
      time.Equal (time.mkTime (time.sec t) 0 time.UTCLoc)
                 (time.Truncate time.Second t) = true)) /\
  (time.IsZero t = true -> NullTime_Value (Some t) = Done (VNil, None)) /\
  NullTime_Scan (Some held) VNil = Done (Some time.zero, None) /\
  time.IsZero time.zero = true.
Proof.
  split; [|split; [|split; reflexivity]].
  - intros Hz Hy. exists (time.Format_RFC3339 (time.UTC t)).
    split; [unfold NullTime_Value; now rewrite Hz|]. split.
    + unfold NullTime_Scan, time.Parse_RFC3339.
      now rewrite parse_format_UTC.
    + intros Hns. unfold time.Equal. cbn [time.sec time.nsec].
      rewrite Truncate_Second_sec by exact Hns.
      rewrite (proj1 (Truncate_Second_nsec t)).
      now rewrite !Z.eqb_refl.
  - intros Hz. unfold NullTime_Value. now rewrite Hz.
Qed.

Lemma NullTime_round_trip_witness :
  let t := time.mkTime 63872539200 250000000 (time.FixedZone "CET" 3600) in
  exists text,
    NullTime_Value (Some t) = Done (VString text, None) /\
    NullTime_Scan (Some time.zero) (VString text)
    = Done (Some (time.mkTime 63872539200 0 time.UTCLoc), None).
Proof.
  destruct (proj1 (NullTime_round_trip
                     (time.mkTime 63872539200 250000000 (time.FixedZone "CET" 3600))
                     time.zero) eq_refl) as (text & Hv & Hs & _).
  - vm_compute. split; discriminate.
  - exists text. split; [exact Hv | exact Hs].
Defined.

(** C5 as it is worded fails beyond year 9999: the instant
    10000-01-01 00:00:00 UTC is present, its encoding has a five-digit year,
    and decoding that text gives the zero instant without an error. *)
Lemma NullTime_round_trip_fails_year_10000 :
  let t := time.mkTime (time.daynum 10000 1 1 * 86400) 0 time.UTCLoc in
  time.IsZero t = false /\
  NullTime_Value (Some t) = Done (VString "10000-01-01T00:00:00Z", None) /\
  NullTime_Scan (Some t) (VString "10000-01-01T00:00:00Z")
  = Done (Some time.zero, None) /\
  time.Equal time.zero (time.Truncate time.Second t) = false.
Proof. vm_compute. repeat split; reflexivity. Qed.

(** ** Migration runner *)

(** *** [sort.Strings] *)

Lemma insert_sorted_In (x y : string) (l : list string) :
  In y (insert_sorted x l) <-> y = x \/ In y l.
Proof.
  induction l as [|z l IH]; simpl.
  - intuition.
  - destruct (String.leb x z); simpl; intuition.
Qed.

Lemma sort_Strings_In (y : string) (l : list string) :
  In y (sort_Strings l) <-> In y l.
Proof.
  induction l as [|x l IH]; simpl; [reflexivity|].
  rewrite insert_sorted_In, IH. intuition.
Qed.

Lemma insert_sorted_sorted (x : string) (l : list string) :
  StronglySorted String.le l -> StronglySorted String.le (insert_sorted x l).
Proof.
  induction 1 as [|z l Hs IH Hz]; simpl.
  - constructor; constructor.
  - destruct (String.leb x z) eqn:E.
    + constructor; [constructor; assumption|].
      assert (Hxz : String.le x z) by (unfold String.le; now rewrite E).
      constructor; [exact Hxz|].
      eapply Forall_impl; [exact Hz|]. intros a Ha. now transitivity z.
    + constructor; [exact IH|].
      apply Forall_forall. intros a Ha.
      apply list_elem_of_In, insert_sorted_In in Ha as [->|Ha].
      * destruct (total String.le x z) as [H|H]; [|exact H].
        unfold String.le in H. rewrite E in H. destruct H.
      * rewrite Forall_forall in Hz. apply Hz. now apply list_elem_of_In.
Qed.

Lemma sort_Strings_sorted (l : list string) :
  StronglySorted String.le (sort_Strings l).
Proof.
  induction l as [|x l IH]; simpl; [constructor|].
  now apply insert_sorted_sorted.
Qed.



(** *** One script *)

Section MigrationFacts.
Context {U : Type}.
Implicit Types (env : MEnv U) (w : MWorld U).

Ltac unfold_migrateFile :=
  unfold migrateFile, insert_row, count_rows;
  repeat match goal with
         | |- context [match ?x with _ => _ end] =>
             match x with
             | context [match _ with _ => _ end] => fail 1
             | _ => destruct x eqn:?
             end
         end.

(** A failed script leaves the database as it was before its transaction;
    a failure in one of the applying steps can only happen to a script
    that was not recorded. *)
Lemma migrateFile_failure env name w w' e :
  migrateFile env name w = (w', Some e) ->
  db w' = db w /\
  (exists s d, e = external s d /\
               (apply_step s -> name ∉ migrations (db w))) /\
  (executed w' = executed w \/ executed w' = (executed w ++ [name])%list).
Proof.
  unfold_migrateFile; intros [= <- <-]; simpl;
    (split; [reflexivity|]); (split; [|auto]);
    eexists _, _; (split; [reflexivity|]);
    unfold apply_step; intros Hs; try assumption;
    try (exfalso; intuition discriminate).
Qed.

Lemma migrateFile_executed env name w w' r :
  migrateFile env name w = (w', r) ->
  executed w' = executed w \/ executed w' = (executed w ++ [name])%list.
Proof.
  unfold_migrateFile; intros [= <- <-]; simpl; auto.
Qed.

(** Each of the four applying steps, when it is the first to fail on an
    unrecorded script, is the error [migrateFile] returns, and the database
    is left as it was. *)
Lemma migrateFile_step_fails env name w :
  fault env AtBegin name = None ->
  fault env AtCount name = None ->
  name ∉ migrations (db w) ->
  let w1 := mkMWorld (db w) (executed w ++ [name]) in
  (forall d, fs_ReadFile env name = Fail d ->
     migrateFile env name w = (w, Some (external AtReadFile d))) /\
  (forall buf d, fs_ReadFile env name = Ret buf ->
     exec_script env buf (db w) = Fail d ->
     migrateFile env name w = (w1, Some (external AtExecScript d))) /\
  (forall buf st1 d, fs_ReadFile env name = Ret buf ->
     exec_script env buf (db w) = Ret st1 ->
     insert_row env name st1 = Fail d ->
     migrateFile env name w = (w1, Some (external AtInsert d))) /\
  (forall buf st1 st2 d, fs_ReadFile env name = Ret buf ->
     exec_script env buf (db w) = Ret st1 ->
     insert_row env name st1 = Ret st2 ->
     fault env AtCommit name = Some d ->
     migrateFile env name w = (w1, Some (external AtCommit d))).
Proof.
  intros Hb Hc Hn. cbv zeta. unfold migrateFile, count_rows.
  rewrite Hb, Hc. destruct (decide (name ∈ migrations (db w))); [contradiction|].
  simpl. repeat split.
  - intros d ->. reflexivity.
  - intros buf d -> ->. reflexivity.
  - intros buf st1 d -> -> ->. reflexivity.
  - intros buf st1 st2 d -> -> -> ->. reflexivity.
Qed.

End MigrationFacts.

(** *** The loop over the sorted names *)

Section MigrateLoop.
Context {U : Type}.
Implicit Types (env : MEnv U) (w : MWorld U).



(** Only names of the list are handed to the engine. *)
Lemma migrate_loop_executed env names w w' r :
  migrate_loop env names w = (w', r) ->
  exists new, executed w' = (executed w ++ new)%list /\
              forall x, In x new -> In x names.
Proof.
  revert w. induction names as [|n names IH]; intros w; simpl.
  - intros [= <- <-]. exists []. split; [now rewrite app_nil_r | intros x []].
  - destruct (migrateFile env n w) as [w1 [c|]] eqn:E.
    + intros [= <- <-]. apply migrateFile_executed in E as [E|E].
      * exists []. split; [now rewrite app_nil_r | intros x []].
      * exists [n]. split; [exact E|]. intros x [<-|[]]. now left.
    + intros H. apply IH in H as (new & Hn & Hin).
      apply migrateFile_executed in E as [E|E]; rewrite E in Hn.
      * exists new. split; [exact Hn|]. intros x Hx. right. now apply Hin.
      * exists (n :: new). split; [now rewrite <- app_assoc in Hn|].
        intros x [<-|Hx]; [now left | right; now apply Hin].
Qed.

End MigrateLoop.


Lemma pair_of_snd {A B : Type} (p : A * B) (b : B) : p.2 = b -> p = (p.1, b).
Proof. destruct p. simpl. now intros ->. Qed.


(** *** Running again *)

Section Idempotence.
Context {U : Type}.
Implicit Types (env : MEnv U) (w : MWorld U).

Ltac unfold_migrateFile :=
  unfold migrateFile, insert_row, count_rows;
  repeat match goal with
         | |- context [match ?x with _ => _ end] =>
             match x with
             | context [match _ with _ => _ end] => fail 1
             | _ => destruct x eqn:?
             end
         end.

(** A recorded script is skipped: whatever the outcome, nothing changes. *)
Lemma migrateFile_recorded env name w w' r :
  name ∈ migrations (db w) ->
  migrateFile env name w = (w', r) ->
  w' = w /\
  (fault env AtBegin name = None -> fault env AtCount name = None -> r = None).
Proof.
  intros Hin. unfold_migrateFile; intros [= <- <-];
    try contradiction; try discriminate; split; try reflexivity; congruence.
Qed.

(** A script that went through is recorded, and no other row changed. *)
Lemma migrateFile_success env name w w' :
  keeps_bookkeeping env ->
  migrateFile env name w = (w', None) ->
  migrations (db w') = {[ name ]} ∪ migrations (db w).
Proof.
  intros Hk. unfold_migrateFile; intros [= <-]; simpl;
    try match goal with
        | H : negb _ = _ |- _ => simpl in H; discriminate
        end;
    try match goal with
        | H : exec_script env _ _ = Ret _ |- _ => apply Hk in H; rewrite H
        end;
    set_solver.
Qed.

(** Rows are never lost. *)
Lemma migrateFile_rows_grow env name w w' r :
  keeps_bookkeeping env ->
  migrateFile env name w = (w', r) ->
  migrations (db w) ⊆ migrations (db w').
Proof.
  intros Hk H. destruct r as [e|].
  - apply migrateFile_failure in H as (-> & _). reflexivity.
  - apply migrateFile_success in H; [|exact Hk]. rewrite H. set_solver.
Qed.

Lemma migrate_loop_success env names w w' :
  keeps_bookkeeping env ->
  migrate_loop env names w = (w', None) ->
  migrations (db w') = list_to_set names ∪ migrations (db w).
Proof.
  intros Hk. revert w. induction names as [|n names IH]; intros w; simpl.
  - intros [= <-]. set_solver.
  - destruct (migrateFile env n w) as [w1 [c|]] eqn:E; [discriminate|].
    intros H. apply IH in H. rewrite H.
    rewrite (migrateFile_success _ _ _ _ Hk E). set_solver.
Qed.

Lemma migrate_loop_recorded env names w w' r :
  (forall n, In n names -> n ∈ migrations (db w)) ->
  migrate_loop env names w = (w', r) ->
  w' = w /\
  ((forall s n, fault env s n = None) -> r = None).
Proof.
  revert w. induction names as [|n names IH]; intros w Hrec; simpl.
  - intros [= <- <-]. auto.
  - destruct (migrateFile env n w) as [w1 [c|]] eqn:E.
    + apply migrateFile_recorded in E as (-> & Hr); [|apply Hrec; now left].
      intros [= <- <-]. split; [reflexivity|]. intros Hq.
      specialize (Hr (Hq _ _) (Hq _ _)). discriminate.
    + apply migrateFile_recorded in E as (-> & _); [|apply Hrec; now left].
      apply IH. intros m Hm. apply Hrec. now right.
Qed.

(** A name that is recorded when the loop starts is not executed by it. *)
Lemma migrate_loop_skips_recorded env names w w' r :
  keeps_bookkeeping env ->
  migrate_loop env names w = (w', r) ->
  exists new, executed w' = (executed w ++ new)%list /\
              forall n, n ∈ migrations (db w) -> ~ In n new.
Proof.
  intros Hk. revert w. induction names as [|n names IH]; intros w; simpl.
  - intros [= <- <-]. exists []. split; [now rewrite app_nil_r | intros n _ []].
  - destruct (migrateFile env n w) as [w1 [c|]] eqn:E.
    + intros [= <- <-].
      destruct (decide (n ∈ migrations (db w))) as [Hin|Hout].
      * apply migrateFile_recorded in E as (-> & _); [|exact Hin].
        exists []. split; [now rewrite app_nil_r | intros m _ []].
      * apply migrateFile_executed in E as [E|E].
        -- exists []. split; [now rewrite app_nil_r | intros m _ []].
        -- exists [n]. split; [exact E|]. intros m Hm [<-|[]]. contradiction.
    + intros H. pose proof (migrateFile_rows_grow _ _ _ _ _ Hk E) as Hgrow.
      apply IH in H as (new & Hn & Hskip).
      destruct (decide (n ∈ migrations (db w))) as [Hin|Hout].
      * apply migrateFile_recorded in E as (-> & _); [|exact Hin].
        exists new. split; [exact Hn|]. exact Hskip.
      * apply migrateFile_executed in E as [E|E]; rewrite E in Hn.
        -- exists new. split; [exact Hn|].
           intros m Hm. apply Hskip. set_solver.
        -- exists (n :: new). split; [now rewrite <- app_assoc in Hn|].
           intros m Hm [<-|Hx]; [contradiction|].
           revert Hx. apply Hskip. set_solver.
Qed.

End Idempotence.

Lemma list_to_set_sort_Strings (names : list string) :
  list_to_set (sort_Strings names) =@{gset string} list_to_set names.
Proof.
  apply set_eq. intros x. rewrite !elem_of_list_to_set, !list_elem_of_In.
  apply sort_Strings_In.
Qed.

(** C2, as far as the code goes.  For scripts that leave the bookkeeping
    table alone: a successful run adds exactly the names of the collection
    to the rows that were there, so on a database without rows the table
    holds exactly the [N] distinct names; running again over the same names
    changes neither the database nor the list of executed scripts, and
    succeeds when the driver raises no fault; running again over a superset
    executes none of the names that are recorded. *)
Theorem Migrate_idempotent {U : Type} (env1 env2 : MEnv U) (w0 w1 : MWorld U)
        (names : list string) :
  keeps_bookkeeping env1 ->
  fs_Glob env1 "migration/*.sql" = Ret names ->
  Migrate env1 w0 = (w1, None) ->
  migrations (db w1) = list_to_set names ∪ migrations (db w0) /\
  (migrations (db w0) = ∅ -> NoDup names ->
     (forall n, n ∈ migrations (db w1) <-> In n names) /\
     size (migrations (db w1)) = length names) /\
  (fs_Glob env2 "migration/*.sql" = Ret names ->
     (forall w2 r, Migrate env2 w1 = (w2, r) -> w2 = w1) /\
     ((forall s n, fault env2 s n = None) -> Migrate env2 w1 = (w1, None))) /\
  (forall names2 w2 r,
     keeps_bookkeeping env2 ->
     fs_Glob env2 "migration/*.sql" = Ret names2 ->
     (forall n, In n names -> In n names2) ->
     Migrate env2 w1 = (w2, r) ->
     exists new, executed w2 = (executed w1 ++ new)%list /\
                 forall n, In n names -> ~ In n new).
Proof.
  intros Hk Hg Hrun.
  assert (Hrows : migrations (db w1) = list_to_set names ∪ migrations (db w0)).
  { unfold Migrate in Hrun. rewrite Hg in Hrun.
    destruct (fault env1 AtCreateTable ""); [discriminate|].
    apply migrate_loop_success in Hrun; [|exact Hk].
    now rewrite list_to_set_sort_Strings in Hrun. }
  assert (Hrec : forall n, In n names -> n ∈ migrations (db w1)).
  { intros n Hn. rewrite Hrows. apply elem_of_union_l, elem_of_list_to_set.
    now apply list_elem_of_In. }
  split; [exact Hrows|]. split; [|split].
  - intros Hempty Hnd. rewrite Hrows, Hempty, (right_id_L ∅ (∪)). split.
    + intros n. now rewrite elem_of_list_to_set, list_elem_of_In.
    + apply size_list_to_set. exact Hnd.
  - intros Hg2. split.
    + intros w2 r. unfold Migrate. rewrite Hg2.
      destruct (fault env2 AtCreateTable ""); [now intros [= <- <-]|].
      intros H. apply migrate_loop_recorded in H as [-> _]; [reflexivity|].
      intros n Hn. apply Hrec. now apply sort_Strings_In.
    + intros Hq. unfold Migrate. rewrite Hg2, Hq.
      destruct (migrate_loop env2 (sort_Strings names) w1) as [w2 r] eqn:E.
      apply migrate_loop_recorded in E as [-> Hr].
      * now rewrite (Hr Hq).
      * intros n Hn. apply Hrec. now apply sort_Strings_In.
  - intros names2 w2 r Hk2 Hg2 Hsub. unfold Migrate. rewrite Hg2.
    destruct (fault env2 AtCreateTable "").
    + intros [= <- <-]. exists []. split; [now rewrite app_nil_r|]. intros n _ [].
    + intros H. apply migrate_loop_skips_recorded in H as (new & Hn & Hskip);
        [|exact Hk2].
      exists new. split; [exact Hn|]. intros n Hin. apply Hskip. now apply Hrec.
Qed.

Lemma list_fs_keeps_bookkeeping files faults :
  keeps_bookkeeping (list_fs files faults).
Proof.
  intros text st st'. simpl. unfold create_table_engine.
  destruct (String.eqb text ""); [now intros [= <-]|].
  destruct (existsb _ _); [discriminate|]. now intros [= <-].
Qed.

Lemma Migrate_idempotent_witness :
  let env := list_fs files_two no_fault in
  let w1 := (Migrate env empty_world).1 in
  size (migrations (db w1)) = 2 /\ Migrate env w1 = (w1, None).
Proof.
  cbv zeta.
  assert (Hrun : (Migrate (list_fs files_two no_fault) empty_world).2 = None)
    by (vm_compute; reflexivity).
  destruct (Migrate_idempotent (list_fs files_two no_fault)
              (list_fs files_two no_fault) empty_world _ (map fst files_two)
              (list_fs_keeps_bookkeeping _ _) eq_refl (pair_of_snd _ _ Hrun))
    as (_ & Hfresh & Hsame & _).
  split.
  - apply Hfresh; [reflexivity|].
    apply (bool_decide_unpack _). vm_compute. exact I.
  - apply (Hsame eq_refl). reflexivity.
Defined.

(** C2 as it is worded fails in three places.  After a run over one script,
    a run over a superset with a second script succeeds and changes both the
    schema and the bookkeeping table; a successful run over a one-script
    collection on a database that already holds another row leaves two
    rows, not one; and when a script of the collection empties the
    bookkeeping table, a second run over the same collection executes the
    first script again. *)
Lemma Migrate_superset_changes_database :
  let r1 := Migrate (list_fs files_one no_fault) empty_world in
  let r2 := Migrate (list_fs files_two no_fault) (r1.1) in
  let r3 := Migrate (list_fs files_other no_fault) (r1.1) in
  r1.2 = None /\ r2.2 = None /\
  user (db (r1.1)) = ["users"] /\ user (db (r2.1)) = ["users"; "posts"] /\
  ("migration/00002_posts.sql" ∉ migrations (db (r1.1))) /\
  ("migration/00002_posts.sql" ∈ migrations (db (r2.1))) /\
  db (r2.1) <> db (r1.1) /\
  r3.2 = None /\ length (map fst files_other) = 1 /\
  size (migrations (db (r3.1))) = 2 /\
  let q1 := Migrate (appending_fs files_wipe) empty_world in
  let q2 := Migrate (appending_fs files_wipe) (q1.1) in
  q1.2 = None /\ q2.2 = None /\
  user (db (q1.1)) = ["seed"] /\ user (db (q2.1)) = ["seed"; "seed"].
Proof.
  cbv zeta.
  assert (Hu1 : user (db (Migrate (list_fs files_one no_fault) empty_world).1)
                = ["users"]) by (vm_compute; reflexivity).
  assert (Hu2 : user (db (Migrate (list_fs files_two no_fault)
                   (Migrate (list_fs files_one no_fault) empty_world).1).1)
                = ["users"; "posts"]) by (vm_compute; reflexivity).
  split; [vm_compute; reflexivity|]. split; [vm_compute; reflexivity|].
  split; [exact Hu1|]. split; [exact Hu2|].
  split; [apply (bool_decide_unpack _); vm_compute; exact I|].
  split; [apply (bool_decide_unpack _); vm_compute; exact I|].
  split; [intros E; rewrite E, Hu1 in Hu2; discriminate|].
  split; [vm_compute; reflexivity|]. split; [reflexivity|].
  split; [vm_compute; reflexivity|].
  repeat split; vm_compute; reflexivity.
Qed.

(** * Further properties *)

(** ** Opening and closing the pools *)

(** X1. A successful [Open] leaves both pools set and open: the write pool
    capped at one open and one idle connection with no expiry, the read
    pool at ten open and five idle; for a persistent location the write
    pool's name is the location followed by the three pragmas. *)
Theorem Open_success_configuration (env : OpenEnv) (db db' : DB)
        (log : list event) :
  Open env db = (db', log, None) ->
  exists rw ro,
    rwDB db' = Some rw /\ roDB db' = Some ro /\
    closed rw = false /\ closed ro = false /\
    MaxOpenConns rw = 1%Z /\ MaxIdleConns rw = 1%Z /\
    ConnMaxLifetime rw = 0%Z /\ ConnMaxIdleTime rw = 0%Z /\
    MaxOpenConns ro = 10%Z /\ MaxIdleConns ro = 5%Z /\
    DSN db' = DSN db /\
    (DSN db <> ":memory:" ->
     dsn rw = DSN db +:+ "?_journal_mode=wal&_foreign_keys=on&_busy_timeout=5000").
Proof.
  unfold Open.
  destruct (String.eqb_spec (DSN db) "") as [E0|N0]; [discriminate|].
  destruct (String.eqb_spec (DSN db) ":memory:") as [Em|Nm].
  - unfold openMemory.
    destruct (sql_Open env _ _); [discriminate|].
    intros [= <- <-]. eexists _, _. simpl.
    repeat split; try reflexivity. intros; congruence.
  - destruct (os_MkdirAll env _ _); [discriminate|].
    destruct (sql_Open env "sqlite3" (DSN db +:+ _)); [discriminate|].
    destruct (sql_Open env "sqlite3" _); [discriminate|].
    intros [= <- <-]. eexists _, _. simpl.
    repeat split; reflexivity.
Qed.

Lemma Open_success_configuration_witness :
  exists rw ro,
    rwDB (opened_db midnight_clock) = Some rw /\
    roDB (opened_db midnight_clock) = Some ro /\
    MaxOpenConns rw = 1%Z /\ MaxOpenConns ro = 10%Z.
Proof.
  destruct (Open_success_configuration always_ok
              (NewDB midnight_clock ":memory:") _ _ eq_refl)
    as (rw & ro & Hrw & Hro & _ & _ & Hm & _ & _ & _ & Hn & _).
  exists rw, ro. repeat split; assumption.
Defined.





(** X4. [Close] releases everything, whatever the driver reports: the
    manager is cancelled, each pool that was set is closed, and the pools
    are closed write pool first, one call each; a manager without pools
    makes no call. *)
Theorem Close_releases_everything (close_fault : Pool -> option string)
        (db : DB) :
  let r := Close close_fault db in
  cancelled (r.1.1) = true /\
  released (rwDB (r.1.1)) /\ released (roDB (r.1.1)) /\
  DSN (r.1.1) = DSN db /\
  r.1.2 = (match rwDB db with Some p => [EvPoolClose (dsn p)] | None => [] end
           ++ match roDB db with Some p => [EvPoolClose (dsn p)] | None => [] end)%list.
Proof.
  unfold Close. destruct db as [[rw|] [ro|] c d n]; simpl; auto 10.
Qed.

(** X5. [Close] reports the first failure in closing order: the write
    pool's if closing it failed, otherwise the read pool's, otherwise
    nothing. *)
Theorem Close_reports_first_error (close_fault : Pool -> option string)
        (db : DB) :
  (Close close_fault db).2
  = match rwDB db ≫= close_fault with
    | Some d => Some (external AtPoolClose d)
    | None =>
        match roDB db ≫= close_fault with
        | Some d => Some (external AtPoolClose d)
        | None => None
        end
    end.
Proof.
  unfold Close. destruct db as [[rw|] [ro|] c d n]; simpl;
    repeat match goal with
           | |- context [close_fault ?p] => destruct (close_fault p)
           end; reflexivity.
Qed.

Example Close_after_Open :
  let db := opened_db midnight_clock in
  (Close close_ok db).2 = None /\
  (Close close_rw_fails db).2 = Some (external AtPoolClose "rw busy") /\
  (Close close_fails db).2 = Some (external AtPoolClose "rw busy") /\
  released (roDB (Close close_fails db).1.1) /\
  Close close_fails (NewDB midnight_clock "x.db")
  = (set_cancelled true (NewDB midnight_clock "x.db"), [], None).
Proof. repeat split; reflexivity. Qed.

(** ** Beginning transactions *)

(** X6. A begin operation returns a handle or an error, never both and
    never neither; when it returns an error the clock has not been read;
    when forcing the immediate lock failed the last driver call is the
    rollback of the transaction that had been begun; the calls made before
    stay in the log. *)
Theorem Begin_handle_xor_error (env : TxEnv) (db : DB)
        (opts : option TxOptions) (w w' : World)
        (otx : option Tx) (oe : option error) :
  BeginTx env db opts w = Done (w', otx, oe) \/
  BeginReadTx env db w = Done (w', otx, oe) ->
  (otx = None <-> is_Some oe) /\
  (is_Some oe -> clock_reads w' = clock_reads w) /\
  (forall d, oe = Some (external AtBeginImmediate d) ->
     exists pre, calls w' = (calls w ++ pre ++ [TxRollback])%list) /\
  (exists new, calls w' = (calls w ++ new)%list).
Proof.
  unfold BeginTx, BeginReadTx. intros [H|H].
  - destruct (rwDB db); [|discriminate].
    destruct (begin_fault env WritePool).
    + injection H as <- <- <-. simpl. split; [split; eauto|].
      split; [reflexivity|]. split; [discriminate|]. eauto.
    + destruct (exec_fault env _).
      * injection H as <- <- <-. simpl. split; [split; eauto|].
        split; [reflexivity|]. split; [|eauto].
        intros d _. eexists [_; _]. reflexivity.
      * injection H as <- <- <-. simpl. split.
        -- split; [discriminate|]. intros [x Hx]. discriminate.
        -- split; [intros [x Hx]; discriminate|]. split; [discriminate|]. eauto.
  - destruct (roDB db); [|discriminate].
    destruct (begin_fault env ReadPool).
    + injection H as <- <- <-. simpl. split; [split; eauto|].
      split; [reflexivity|]. split; [discriminate|]. eauto.
    + injection H as <- <- <-. simpl. split.
      * split; [discriminate|]. intros [x Hx]. discriminate.
      * split; [intros [x Hx]; discriminate|]. split; [discriminate|]. eauto.
Qed.

Lemma Begin_handle_xor_error_witness :
  let r := BeginTx busy_driver (opened_db ticking_clock) None (mkWorld 3 []) in
  exists w', r = Done (w', None, Some (external AtBeginImmediate "database is locked")) /\
             clock_reads w' = 3 /\
             exists pre, calls w' = ([] ++ pre ++ [TxRollback])%list.
Proof.
  cbv zeta. eexists. split; [reflexivity|].
  destruct (Begin_handle_xor_error busy_driver (opened_db ticking_clock) None
              (mkWorld 3 []) _ _ _ (or_introl eq_refl)) as (_ & Hclock & Hroll & _).
  split.
  - apply Hclock. eexists. reflexivity.
  - apply (Hroll "database is locked"). reflexivity.
Defined.



(** X8. Transactions begun one after the other each take their own clock
    reading: the second handle holds the reading that follows the first
    handle's, and beginning the second does not change what the first
    reports. *)
Theorem Begin_twice (env : TxEnv) (db : DB) (opts : option TxOptions)
        (w w1 w2 : World) (tx1 tx2 : Tx) (e1 e2 : option error) :
  BeginTx env db opts w = Done (w1, Some tx1, e1) ->
  BeginReadTx env db w1 = Done (w2, Some tx2, e2) ->
  (Tx_Now tx1 w2).1
  = time.Truncate time.Second (time.UTC (Now db (clock_reads w))) /\
  (Tx_Now tx2 w2).1
  = time.Truncate time.Second (time.UTC (Now db (S (clock_reads w)))) /\
  (Tx_Now tx1 w2).1 = (Tx_Now tx1 w1).1 /\
  clock_reads w2 = S (S (clock_reads w)).
Proof.
  intros H1 H2.
  apply (fun H => Begin_handle env db opts w w1 tx1 e1 (or_introl H)) in H1
    as (_ & Hr1 & Hn1).
  apply (fun H => Begin_handle env db opts w1 w2 tx2 e2 (or_intror H)) in H2
    as (_ & Hr2 & Hn2).
  unfold Tx_Now. simpl. rewrite Hn1, Hn2, Hr2, Hr1. auto.
Qed.

Lemma Begin_twice_witness :
  exists w1 w2 tx1 tx2,
    BeginTx quiet_driver (opened_db ticking_clock) None (mkWorld 0 [])
    = Done (w1, Some tx1, None) /\
    BeginReadTx quiet_driver (opened_db ticking_clock) w1
    = Done (w2, Some tx2, None) /\
    (Tx_Now tx1 w2).1 = time.mkTime 63872539200 0 time.UTCLoc /\
    (Tx_Now tx2 w2).1 = time.mkTime 63872542800 0 time.UTCLoc.
Proof.
  eexists _, _, _, _. split; [reflexivity|]. split; [reflexivity|].
  destruct (Begin_twice quiet_driver (opened_db ticking_clock) None
              (mkWorld 0 []) _ _ _ _ None None eq_refl eq_refl)
    as (H1 & H2 & _).
  split; [exact H1 | exact H2].
Defined.

(** ** More on the nullable-timestamp codec *)

(** X9. What [Value] stores for a present instant depends on its whole
    second only: the location and the sub-second part leave no trace in the
    text. *)
Theorem Value_depends_on_second (t u : time.Time) :
  time.sec t = time.sec u ->
  time.IsZero t = false -> time.IsZero u = false ->
  NullTime_Value (Some t) = NullTime_Value (Some u).
Proof.
  intros Hs Ht Hu. unfold NullTime_Value. rewrite Ht, Hu.
  unfold time.Format_RFC3339, time.UTC. cbn [time.sec time.loc]. now rewrite Hs.
Qed.

Lemma Value_depends_on_second_witness :
  NullTime_Value (Some (time.mkTime 63872539200 250000000 (time.FixedZone "CET" 3600)))
  = NullTime_Value (Some (time.mkTime 63872539200 0 time.UTCLoc)).
Proof.
  apply Value_depends_on_second; reflexivity.
Defined.

(** X10. [Scan] on a nil receiver panics exactly when the source is nil or
    a string: those are the branches that store through the receiver. *)
Theorem Scan_nil_receiver (v : value) :
  NullTime_Scan None v = Panic <-> (v = VNil \/ exists s, v = VString s).
Proof.
  split.
  - destruct v; simpl; try discriminate; eauto.
  - intros [->|[s ->]]; reflexivity.
Qed.

Lemma Scan_nil_receiver_witness :
  NullTime_Scan None (VString "2025-01-15T12:00:00Z") = Panic /\
  NullTime_Scan None (VInt64 7) <> Panic.
Proof.
  split.
  - apply (proj2 (Scan_nil_receiver (VString "2025-01-15T12:00:00Z"))).
    right. eexists. reflexivity.
  - intros H. apply (proj1 (Scan_nil_receiver (VInt64 7))) in H.
    destruct H as [H|[s H]]; discriminate H.
Defined.



(** ** More on the pagination formatter *)

Lemma list_ascii_of_append (a b : string) :
  list_ascii_of_string (a +:+ b)
  = (list_ascii_of_string a ++ list_ascii_of_string b)%list.
Proof.
  induction a as [|c a IH]; [reflexivity|].
  rewrite append_cons. simpl. now rewrite IH.
Qed.

Lemma uint_digits (d : Decimal.uint) :
  forallb clause_char (list_ascii_of_string (NilEmpty.string_of_uint d)) = true.
Proof.
  induction d; simpl; try rewrite IHd; reflexivity.
Qed.

Lemma Sprintf_d_digits (z : Z) :
  (0 < z)%Z ->
  forallb clause_char (list_ascii_of_string (Sprintf_d z)) = true /\
  Sprintf_d z <> "".
Proof.
  destruct z as [|p|p]; try lia. intros _.
  unfold Sprintf_d. simpl. unfold NilZero.string_of_uint.
  pose proof (uint_digits (Pos.to_uint p)) as H.
  destruct (Pos.to_uint p) eqn:E; simpl in *;
    (split; [first [exact H | reflexivity] | discriminate]).
Qed.

(** X12. The clause is empty exactly when neither argument is positive. *)
Theorem FormatLimitOffset_empty_iff (limit offset : Z) :
  FormatLimitOffset limit offset = "" <-> (limit <= 0)%Z /\ (offset <= 0)%Z.
Proof.
  unfold FormatLimitOffset.
  destruct (Z.ltb_spec 0 limit), (Z.ltb_spec 0 offset); simpl;
    split; try discriminate; try lia; try (intros; reflexivity).
Qed.

Lemma FormatLimitOffset_empty_iff_witness :
  FormatLimitOffset (-5) 0 = "" /\ FormatLimitOffset 0 1 <> "".
Proof.
  split.
  - apply (proj2 (FormatLimitOffset_empty_iff (-5) 0)). lia.
  - intros H. apply (proj1 (FormatLimitOffset_empty_iff 0 1)) in H. lia.
Defined.

(** X13. Only the positive part of an argument matters: a zero or negative
    limit or offset gives the same clause as zero. *)
Theorem FormatLimitOffset_clamps (limit offset : Z) :
  FormatLimitOffset limit offset
  = FormatLimitOffset (Z.max limit 0) (Z.max offset 0).
Proof.
  unfold FormatLimitOffset.
  destruct (Z.ltb_spec 0 limit), (Z.ltb_spec 0 offset);
    destruct (Z.ltb_spec 0 (Z.max limit 0)), (Z.ltb_spec 0 (Z.max offset 0));
    try lia; simpl;
    rewrite ?Z.max_l by lia; reflexivity.
Qed.

(** X14. Whatever the integers, the clause is written with the letters of
    [LIMIT] and [OFFSET], the space and the ten digits only: no sign, quote
    or other character reaches the SQL text. *)
Theorem FormatLimitOffset_alphabet (limit offset : Z) :
  forallb clause_char (list_ascii_of_string (FormatLimitOffset limit offset))
  = true.
Proof.
  unfold FormatLimitOffset.
  destruct (Z.ltb_spec 0 limit) as [Hl|Hl], (Z.ltb_spec 0 offset) as [Ho|Ho];
    simpl; rewrite ?list_ascii_of_append, ?forallb_app;
    rewrite ?(proj1 (Sprintf_d_digits limit Hl));
    rewrite ?(proj1 (Sprintf_d_digits offset Ho)); reflexivity.
Qed.

(** ** More on the migration runner *)

Lemma insert_sorted_perm (x : string) (l : list string) :
  insert_sorted x l ≡ₚ x :: l.
Proof.
  induction l as [|y l IH]; simpl; [reflexivity|].
  destruct (String.leb x y); [reflexivity|].
  rewrite IH. apply perm_swap.
Qed.

Lemma sort_Strings_perm (l : list string) : sort_Strings l ≡ₚ l.
Proof.
  induction l as [|x l IH]; simpl; [reflexivity|].
  now rewrite insert_sorted_perm, IH.
Qed.

(** The sorted list depends on the names only, not on their order. *)
Lemma sort_Strings_order_irrelevant (l l' : list string) :
  l ≡ₚ l' -> sort_Strings l = sort_Strings l'.
Proof.
  intros H. apply (StronglySorted_unique String.le).
  - apply sort_Strings_sorted.
  - apply sort_Strings_sorted.
  - now rewrite !sort_Strings_perm.
Qed.

Lemma filter_agree {A} (P Q : A -> Prop) `{!forall x, Decision (P x)}
      `{!forall x, Decision (Q x)} (l : list A) :
  (forall x, x ∈ l -> P x <-> Q x) -> filter P l = filter Q l.
Proof.
  induction l as [|a l IH]; intros Hagree; [reflexivity|].
  rewrite !filter_cons.
  assert (Ha : P a <-> Q a) by (apply Hagree; left).
  rewrite IH by (intros x Hx; apply Hagree; now right).
  destruct (decide (P a)), (decide (Q a)); tauto.
Qed.

Section Pending.
Context {U : Type}.
Implicit Types (env : MEnv U) (w : MWorld U).

Lemma migrateFile_applied env name w w' :
  name ∉ migrations (db w) ->
  migrateFile env name w = (w', None) ->
  executed w' = (executed w ++ [name])%list.
Proof.
  intros Hn. unfold migrateFile, insert_row, count_rows.
  destruct (fault env AtBegin name); [discriminate|].
  destruct (fault env AtCount name); [discriminate|].
  destruct (decide (name ∈ migrations (db w))); [contradiction|]. simpl.
  destruct (fs_ReadFile env name); [|discriminate].
  destruct (exec_script env a (db w)); [|discriminate].
  destruct (fault env AtInsert name); [discriminate|].
  destruct (decide (name ∈ migrations a0)); [discriminate|].
  destruct (fault env AtCommit name); [discriminate|].
  now intros [= <-].
Qed.

(** A loop that goes through executes the names that had no row, in the
    order of the list, and nothing else. *)
Lemma migrate_loop_pending env names w w' :
  keeps_bookkeeping env -> NoDup names ->
  migrate_loop env names w = (w', None) ->
  executed w'
  = (executed w ++ filter (fun n => n ∉ migrations (db w)) names)%list.
Proof.
  intros Hk. revert w. induction names as [|n names IH]; intros w Hnd; simpl.
  - intros [= <-]. now rewrite app_nil_r.
  - apply NoDup_cons in Hnd as [Hn Hnd].
    destruct (migrateFile env n w) as [w1 [c|]] eqn:E; [discriminate|].
    intros H. apply IH in H; [|exact Hnd]. rewrite H, filter_cons.
    destruct (decide (n ∉ migrations (db w))) as [Hout|Hin].
    + rewrite (migrateFile_applied _ _ _ _ Hout E), <- app_assoc. simpl.
      do 2 f_equal. apply filter_agree. intros x Hx.
      rewrite (migrateFile_success _ _ _ _ Hk E).
      assert (x <> n) by (intros ->; contradiction). set_solver.
    + apply dec_stable in Hin.
      apply migrateFile_recorded in E as [-> _]; [reflexivity | exact Hin].
Qed.

End Pending.

(** X15. A successful run over distinct names executes exactly the scripts
    that had no bookkeeping row when it started, each once, in ascending
    bytewise order of their names, whatever the order of the listing
    (for scripts that leave the bookkeeping table alone). *)
Theorem Migrate_executes_pending {U : Type} (env : MEnv U) (w w' : MWorld U)
        (names : list string) :
  keeps_bookkeeping env -> NoDup names ->
  fs_Glob env "migration/*.sql" = Ret names ->
  Migrate env w = (w', None) ->
  executed w'
  = (executed w
     ++ filter (fun n => n ∉ migrations (db w)) (sort_Strings names))%list /\
  StronglySorted String.le (sort_Strings names) /\
  sort_Strings names ≡ₚ names.
Proof.
  intros Hk Hnd Hg. unfold Migrate. rewrite Hg.
  destruct (fault env AtCreateTable ""); [discriminate|]. intros H.
  split; [|split; [apply sort_Strings_sorted | apply sort_Strings_perm]].
  apply (migrate_loop_pending env); [exact Hk | | exact H].
  now rewrite sort_Strings_perm.
Qed.

Lemma Migrate_executes_pending_witness :
  let w1 := (Migrate (list_fs files_one no_fault) empty_world).1 in
  executed (Migrate (list_fs files_two no_fault) w1).1
  = ["migration/00001_init.sql"; "migration/00002_posts.sql"].
Proof.
  cbv zeta.
  assert (Hrun : (Migrate (list_fs files_two no_fault)
                    (Migrate (list_fs files_one no_fault) empty_world).1).2 = None)
    by (vm_compute; reflexivity).
  rewrite (proj1 (Migrate_executes_pending (list_fs files_two no_fault) _ _
                    (map fst files_two) (list_fs_keeps_bookkeeping _ _)
                    ltac:(apply (bool_decide_unpack _); vm_compute; exact I)
                    eq_refl (pair_of_snd _ _ Hrun))).
  vm_compute. reflexivity.
Defined.

Lemma migrateFile_ext {U : Type} (env env' : MEnv U) (name : string)
      (w : MWorld U) :
  (forall n, fs_ReadFile env' n = fs_ReadFile env n) ->
  (forall text st, exec_script env' text st = exec_script env text st) ->
  (forall s n, fault env' s n = fault env s n) ->
  migrateFile env' name w = migrateFile env name w.
Proof.
  intros Hr Hx Hf. unfold migrateFile, insert_row.
  rewrite !Hf, Hr.
  destruct (fs_ReadFile env name); [|reflexivity].
  rewrite Hx. reflexivity.
Qed.

(** X16. The order in which the file system lists the scripts does not
    matter: two environments that agree on everything but the order of the
    listing make [Migrate] do the same. *)
Theorem Migrate_listing_order_irrelevant {U : Type} (env env' : MEnv U)
        (w : MWorld U) (names names' : list string) :
  (forall n, fs_ReadFile env' n = fs_ReadFile env n) ->
  (forall text st, exec_script env' text st = exec_script env text st) ->
  (forall s n, fault env' s n = fault env s n) ->
  fs_Glob env "migration/*.sql" = Ret names ->
  fs_Glob env' "migration/*.sql" = Ret names' ->
  names ≡ₚ names' ->
  Migrate env' w = Migrate env w.
Proof.
  intros Hr Hx Hf Hg Hg' Hp. unfold Migrate. rewrite Hg, Hg', Hf.
  destruct (fault env AtCreateTable ""); [reflexivity|].
  rewrite (sort_Strings_order_irrelevant _ _ Hp).
  generalize (sort_Strings names'). intros l. revert w.
  induction l as [|n l IH]; intros w; [reflexivity|].
  simpl. rewrite (migrateFile_ext env env' n w Hr Hx Hf).
  destruct (migrateFile env n w) as [w1 [c|]]; [reflexivity|].
  apply IH.
Qed.

Lemma lookup_file_two (n : string) :
  lookup_file files_two_listed_sorted n = lookup_file files_two n.
Proof.
  unfold files_two_listed_sorted, files_two. cbn [lookup_file].
  destruct (String.eqb_spec "migration/00001_init.sql" n) as [E1|N1],
           (String.eqb_spec "migration/00002_posts.sql" n) as [E2|N2];
    first [reflexivity | exfalso; rewrite <- E2 in E1; discriminate].
Qed.

Lemma Migrate_listing_order_irrelevant_witness :
  Migrate (list_fs files_two_listed_sorted no_fault) empty_world
  = Migrate (list_fs files_two no_fault) empty_world.
Proof.
  apply (Migrate_listing_order_irrelevant (list_fs files_two no_fault)
           (list_fs files_two_listed_sorted no_fault) empty_world
           (map fst files_two) (map fst files_two_listed_sorted)).
  - apply lookup_file_two.
  - reflexivity.
  - reflexivity.
  - reflexivity.
  - reflexivity.
  - apply perm_swap.
Defined.



(** X18. Whatever the outcome, [Migrate] removes no bookkeeping row, keeps
    the record of what was executed before, and hands to the engine only
    scripts that the file system listed and that had no row when the run
    started (for scripts that leave the bookkeeping table alone). *)
Theorem Migrate_executes_only_unrecorded_listed {U : Type} (env : MEnv U)
        (w w' : MWorld U) (r : option error) :
  keeps_bookkeeping env ->
  Migrate env w = (w', r) ->
  migrations (db w) ⊆ migrations (db w') /\
  exists new,
    executed w' = (executed w ++ new)%list /\
    forall n, In n new ->
      (n ∉ migrations (db w)) /\
      exists names, fs_Glob env "migration/*.sql" = Ret names /\ In n names.
Proof.
  intros Hk. unfold Migrate.
  destruct (fault env AtCreateTable "").
  { intros [= <- <-]. split; [reflexivity|]. exists [].
    split; [now rewrite app_nil_r | intros n []]. }
  destruct (fs_Glob env "migration/*.sql") as [names|d].
  2:{ intros [= <- <-]. split; [reflexivity|]. exists [].
      split; [now rewrite app_nil_r | intros n []]. }
  intros H. split.
  - clear -Hk H. revert w H.
    induction (sort_Strings names) as [|n l IH]; intros w; simpl.
    + intros [= <- <-]. reflexivity.
    + destruct (migrateFile env n w) as [w1 [c|]] eqn:E.
      * intros [= <- <-]. eapply migrateFile_rows_grow; eassumption.
      * intros H. etransitivity; [eapply migrateFile_rows_grow; eassumption|].
        now apply IH.
  - pose proof (migrate_loop_executed _ _ _ _ _ H) as (new & Hn & Hin).
    pose proof (migrate_loop_skips_recorded _ _ _ _ _ Hk H) as (new' & Hn' & Hskip).
    assert (new' = new) as -> by (rewrite Hn in Hn'; now apply app_inv_head in Hn').
    exists new. split; [exact Hn|]. intros n Hnew. split.
    + intros Hrec. now apply (Hskip n Hrec).
    + exists names. split; [reflexivity|]. apply sort_Strings_In. now apply Hin.
Qed.

Lemma Migrate_executes_only_unrecorded_listed_witness :
  let w1 := (Migrate (list_fs files_one no_fault) empty_world).1 in
  migrations (db w1) ⊆ migrations (db (Migrate (list_fs files_two no_fault) w1).1).
Proof.
  cbv zeta.
  apply (proj1 (Migrate_executes_only_unrecorded_listed
                  (list_fs files_two no_fault) _ _
                  (Migrate (list_fs files_two no_fault)
                     (Migrate (list_fs files_one no_fault) empty_world).1).2
                  (list_fs_keeps_bookkeeping _ _)
                  (pair_of_snd _ _ eq_refl))).
Defined.






